(** * steam-content-lookup: the search pipeline of [SearchService]

    A shallow embedding of [src/app/services/search.service.ts]: the
    classification of a search term, the resolution of a Steam ID through
    the remote identity service, the owned-games fetch and the events the
    service emits on the way.

    JavaScript strings are modelled as [string] (one [ascii] per code
    unit), [undefined] as [None], a promise as the value it settles with
    together with the trace of what the service did until then. *)

From Stdlib Require Import Strings.String Strings.Ascii Lists.List Bool.Bool
  Arith.PeanoNat NArith.NArith Lia.
Import ListNotations.

Local Open Scope string_scope.
Local Open Scope list_scope.

Set Implicit Arguments.

(* ------------------------------------------------------------------ *)
(** ** JavaScript strings                                              *)
(* ------------------------------------------------------------------ *)

Module JS.

(** [undefined] or a string. *)
Definition value := option string.

(** Template-literal interpolation [`${v}`]. *)
Definition to_string (v : value) : string :=
  match v with
  | Some s => s
  | None => "undefined"
  end.

(** Truthiness of a string-or-undefined: [if (v)]. *)
Definition truthy (v : value) : bool :=
  match v with
  | Some s => negb (Nat.eqb (String.length s) 0)
  | None => false
  end.

(** [hay.includes(needle)]. *)
Fixpoint includes (needle hay : string) : bool :=
  String.prefix needle hay ||
  match hay with
  | EmptyString => false
  | String _ rest => includes needle rest
  end.

(** [s.split(sep)] for a one-character separator; [cur] is the piece
    being read. *)
Fixpoint split_from (sep : ascii) (cur : string) (s : string) : list string :=
  match s with
  | EmptyString => [cur]
  | String c rest =>
      if Ascii.eqb c sep
      then cur :: split_from sep EmptyString rest
      else split_from sep (cur ++ String c EmptyString)%string rest
  end.

Definition split (sep : ascii) (s : string) : list string :=
  split_from sep EmptyString s.

Definition code (c : ascii) : nat := nat_of_ascii c.

Definition between (lo hi : ascii) (c : ascii) : bool :=
  Nat.leb (code lo) (code c) && Nat.leb (code c) (code hi).

Definition is_digit : ascii -> bool := between "0" "9".
Definition is_lower : ascii -> bool := between "a" "z".
Definition is_upper : ascii -> bool := between "A" "Z".
Definition is_alpha (c : ascii) : bool := is_lower c || is_upper c.
Definition is_alnum (c : ascii) : bool := is_alpha c || is_digit c.

(** Membership of a character in the characters of a string. *)
Fixpoint one_of (chars : string) (c : ascii) : bool :=
  match chars with
  | EmptyString => false
  | String d rest => Ascii.eqb c d || one_of rest c
  end.

Definition to_lower (c : ascii) : ascii :=
  if is_upper c then ascii_of_nat (code c + 32) else c.

(** A template literal, given by its pieces in order. *)
Definition template (pieces : list string) : string :=
  String.concat EmptyString pieces.

End JS.

(* ------------------------------------------------------------------ *)
(** ** Regular expressions                                             *)
(* ------------------------------------------------------------------ *)

(** The fragment of ECMAScript regular expressions the service uses:
    characters, [.], character classes, [\b], concatenation, [?], [{m,n}]
    and [*].  Matching is by backtracking with a continuation, which
    receives the character before the current position (for [\b]) and the
    rest of the subject. *)
Module Regex.

Inductive regex : Type :=
| Chr (c : ascii)
| Dot
| Class (p : ascii -> bool)
| WordBoundary
| Cat (r1 r2 : regex)
| Opt (r : regex)
| Rep (lo hi : nat) (r : regex)
| Star (r : regex).

Definition cont := option ascii -> list ascii -> bool.

Definition is_word (c : ascii) : bool := JS.is_alnum c || Ascii.eqb c "_".

Definition word_before (prev : option ascii) : bool :=
  match prev with Some c => is_word c | None => false end.

Definition word_after (s : list ascii) : bool :=
  match s with c :: _ => is_word c | [] => false end.

(** [.] matches anything but a line terminator. *)
Definition is_line_terminator (c : ascii) : bool :=
  Ascii.eqb c "010" || Ascii.eqb c "013".

Definition step (p : ascii -> bool) (k : cont) (s : list ascii) : bool :=
  match s with
  | c :: s' => p c && k (Some c) s'
  | [] => false
  end.

(** Up to [n] more rounds of [body], of which [lo] are still owed. *)
Fixpoint repeat (body : cont -> cont) (n lo : nat) (k : cont) : cont :=
  fun prev s =>
    match n with
    | 0 => Nat.eqb lo 0 && k prev s
    | S n' =>
        body (repeat body n' (Nat.pred lo) k) prev s
        || (Nat.eqb lo 0 && k prev s)
    end.

Fixpoint rmatch (r : regex) (k : cont) : cont :=
  fun prev s =>
    match r with
    | Chr c => step (Ascii.eqb c) k s
    | Dot => step (fun c => negb (is_line_terminator c)) k s
    | Class p => step p k s
    | WordBoundary => xorb (word_before prev) (word_after s) && k prev s
    | Cat r1 r2 => rmatch r1 (rmatch r2 k) prev s
    | Opt r' => rmatch r' k prev s || k prev s
    | Rep lo hi r' => repeat (rmatch r') hi lo k prev s
    | Star r' => repeat (rmatch r') (List.length s) 0 k prev s
    end.

(** A match starting at the current position or at a later one. *)
Fixpoint search (r : regex) (prev : option ascii) (s : list ascii) : bool :=
  rmatch r (fun _ _ => true) prev s ||
  match s with
  | [] => false
  | c :: s' => search r (Some c) s'
  end.

(** [subject.match(r) !== null] for a global ([/g]) expression. *)
Definition matches (r : regex) (subject : string) : bool :=
  search r None (list_ascii_of_string subject).

(** A literal word. *)
Fixpoint lit (w : string) : regex :=
  match w with
  | EmptyString => Rep 0 0 Dot
  | String c EmptyString => Chr c
  | String c rest => Cat (Chr c) (lit rest)
  end.

End Regex.

(* ------------------------------------------------------------------ *)
(** ** The platform's [URL] class                                      *)
(* ------------------------------------------------------------------ *)

(** What the service reads of a parsed URL. *)
Record URL : Type := {
  protocol : string;
  hostname : string;
  pathname : string
}.

(** A model of [new URL(input)] (no base URL), after the basic URL parser
    of the WHATWG URL Standard: [None] stands for the [TypeError] the
    constructor throws when parsing fails.

    Modelled: the stripping of the input, the scheme, special and
    non-special schemes, the authority with its credentials and port,
    ASCII hosts with percent-decoding and the forbidden code points, the
    IPv4 numbers with their ranges, path segments with dot segments and
    percent-encoding, opaque paths.
    Left out: IDNA (a host with characters outside ASCII or with a
    punycode label is kept as written, where the platform maps it), the
    canonical form of IPv4 addresses (kept as written), the validation
    and the canonical form of IPv6 literals (a bracketed host made of
    hexadecimal digits, colons and dots is taken as written, so a
    malformed literal passes where the platform throws), Windows drive
    letters in [file:] URLs.  On a text without a scheme the model fails
    as the standard does, before any of this is reached. *)
Module Whatwg.

Definition chars (s : string) : list ascii := list_ascii_of_string s.
Definition text (l : list ascii) : string := string_of_list_ascii l.

Definition c0_or_space (c : ascii) : bool := Nat.leb (JS.code c) 32.

Definition tab_or_newline (c : ascii) : bool :=
  Ascii.eqb c "009" || Ascii.eqb c "010" || Ascii.eqb c "013".

Fixpoint drop_while (p : ascii -> bool) (s : list ascii) : list ascii :=
  match s with
  | c :: rest => if p c then drop_while p rest else s
  | [] => []
  end.

(** Leading and trailing C0 controls and spaces are stripped, then every
    tab and newline is removed. *)
Definition preprocess (s : list ascii) : list ascii :=
  filter (fun c => negb (tab_or_newline c))
    (rev (drop_while c0_or_space (rev (drop_while c0_or_space s)))).

(** Scheme state: the scheme in lower case and what follows its colon. *)
Fixpoint scheme_state (buffer s : list ascii)
  : option (list ascii * list ascii) :=
  match s with
  | [] => None
  | c :: rest =>
      if JS.is_alnum c || JS.one_of "+-." c
      then scheme_state (buffer ++ [JS.to_lower c]) rest
      else if Ascii.eqb c ":" then Some (buffer, rest)
      else None
  end.

(** Scheme start state; with no base URL the no-scheme state fails. *)
Definition scheme_start_state (s : list ascii)
  : option (list ascii * list ascii) :=
  match s with
  | c :: _ => if JS.is_alpha c then scheme_state [] s else None
  | [] => None
  end.

Definition is_special (scheme : string) : bool :=
  existsb (String.eqb scheme) ["ftp"; "file"; "http"; "https"; "ws"; "wss"].

Definition is_slash (special : bool) (c : ascii) : bool :=
  Ascii.eqb c "/" || (special && Ascii.eqb c "\").

(** The prefix before the first character satisfying [stop], and the
    rest from that character on. *)
Fixpoint break_at (stop : ascii -> bool) (s : list ascii)
  : list ascii * list ascii :=
  match s with
  | [] => ([], [])
  | c :: rest =>
      if stop c then ([], s)
      else let (a, b) := break_at stop rest in (c :: a, b)
  end.

(** What follows the last [sep], if there is one. *)
Fixpoint after_last (sep : ascii) (s : list ascii) : option (list ascii) :=
  match s with
  | [] => None
  | c :: rest =>
      match after_last sep rest with
      | Some t => Some t
      | None => if Ascii.eqb c sep then Some rest else None
      end
  end.

(** Host state: the host text and, after a colon outside brackets, the
    port text. *)
Fixpoint host_state (inside : bool) (s : list ascii)
  : list ascii * option (list ascii) :=
  match s with
  | [] => ([], None)
  | c :: rest =>
      if Ascii.eqb c ":" && negb inside then ([], Some rest)
      else
        let inside' :=
          if Ascii.eqb c "[" then true
          else if Ascii.eqb c "]" then false else inside in
        let (h, p) := host_state inside' rest in (c :: h, p)
  end.

Fixpoint decimal (acc : nat) (s : list ascii) : nat :=
  match s with
  | [] => acc
  | c :: rest => decimal (10 * acc + (JS.code c - 48)) rest
  end.

(** Port state: digits only, and a value below 2^16. *)
Definition port_ok (p : list ascii) : bool :=
  let digits := drop_while (Ascii.eqb "0") p in
  forallb JS.is_digit p &&
  Nat.leb (List.length digits) 5 &&
  Nat.ltb (decimal 0 digits) (256 * 256).

Definition is_hex (c : ascii) : bool :=
  JS.is_digit c || JS.between "a" "f" c || JS.between "A" "F" c.

Definition hex_value (c : ascii) : nat :=
  if JS.is_digit c then JS.code c - 48
  else if JS.between "a" "f" c then JS.code c - 87
  else JS.code c - 55.

Fixpoint percent_decode (s : list ascii) : list ascii :=
  match s with
  | [] => []
  | c :: rest =>
      match rest with
      | a :: b :: rest' =>
          if Ascii.eqb c "%" && is_hex a && is_hex b
          then ascii_of_nat (16 * hex_value a + hex_value b)
                 :: percent_decode rest'
          else c :: percent_decode rest
      | _ => c :: percent_decode rest
      end
  end.

Definition forbidden_host (c : ascii) : bool :=
  Ascii.eqb c "000" || tab_or_newline c || JS.one_of " #/:<>?@[\]^|" c.

Definition forbidden_domain (c : ascii) : bool :=
  forbidden_host c || Nat.leb (JS.code c) 31 || Ascii.eqb c "%"
  || Ascii.eqb c "127".

Definition hex_digit (n : nat) : ascii :=
  if Nat.ltb n 10 then ascii_of_nat (48 + n) else ascii_of_nat (55 + n).

(** The C0 control, query and path percent-encode sets. *)
Definition c0_control_set (c : ascii) : bool :=
  Nat.leb (JS.code c) 31 || Nat.ltb 126 (JS.code c).

Definition query_set (c : ascii) : bool :=
  c0_control_set c || JS.one_of " #<>" c || Nat.eqb (JS.code c) 34.

Definition path_set (c : ascii) : bool :=
  query_set c || JS.one_of "?^`{}" c.

Definition percent_encode (set : ascii -> bool) (s : list ascii)
  : list ascii :=
  flat_map
    (fun c =>
       if set c
       then ["%"%char; hex_digit (JS.code c / 16); hex_digit (JS.code c mod 16)]
       else [c])
    s.

(** Strict splitting on the characters satisfying [sep]. *)
Fixpoint split_on (sep : ascii -> bool) (cur s : list ascii)
  : list (list ascii) :=
  match s with
  | [] => [cur]
  | c :: rest =>
      if sep c then cur :: split_on sep [] rest
      else split_on sep (cur ++ [c]) rest
  end.

Definition is_empty (s : list ascii) : bool :=
  match s with [] => true | _ => false end.

(** An IPv4 number: decimal, octal with a leading 0, or hexadecimal
    with a leading 0x. *)
Definition ipv4_number (part : list ascii) : bool :=
  match part with
  | [] => false
  | "0"%char :: x :: rest =>
      if Ascii.eqb x "x" || Ascii.eqb x "X" then forallb is_hex rest
      else forallb (JS.between "0" "7") (x :: rest)
  | _ => forallb JS.is_digit part
  end.

Fixpoint number (radix acc : N) (s : list ascii) : N :=
  match s with
  | [] => acc
  | c :: rest => number radix (radix * acc + N.of_nat (hex_value c))%N rest
  end.

(** The value of an IPv4 number. *)
Definition ipv4_value (part : list ascii) : N :=
  match part with
  | "0"%char :: x :: rest =>
      if Ascii.eqb x "x" || Ascii.eqb x "X" then number 16 0 rest
      else number 8 0 (x :: rest)
  | _ => number 10 0 part
  end.

(** Every number but the last is at most 255, and the last one fits in
    the bytes that are left. *)
Definition ipv4_in_range (parts : list (list ascii)) : bool :=
  match rev parts with
  | [] => false
  | last :: others =>
      forallb (fun part => N.leb (ipv4_value part) 255) others
      && N.ltb (ipv4_value last)
           (N.pow 256 (N.of_nat (5 - List.length parts)))
  end.

(** The labels of a domain, without one trailing empty label. *)
Definition labels (domain : list ascii) : list (list ascii) :=
  let parts := split_on (Ascii.eqb ".") [] domain in
  match rev parts with
  | [] :: (_ :: _) as others => rev others
  | _ => parts
  end.

Definition ends_in_a_number (domain : list ascii) : bool :=
  match rev (labels domain) with
  | last :: _ =>
      (negb (is_empty last) && forallb JS.is_digit last) || ipv4_number last
  | [] => false
  end.

(** Host parser; hosts are kept in the textual form they are given in,
    lower-cased for a domain.  An IPv6 literal is not validated beyond
    its alphabet, and a domain is not put through IDNA. *)
Definition host_parse (opaque : bool) (input : list ascii)
  : option (list ascii) :=
  match input with
  | "["%char :: rest =>
      match rev rest with
      | "]"%char :: inner =>
          if forallb (fun c => is_hex c || JS.one_of ":." c) inner
          then Some (map JS.to_lower input) else None
      | _ => None
      end
  | _ =>
      if opaque then
        if existsb forbidden_host input then None
        else Some (percent_encode c0_control_set input)
      else
        let domain := map JS.to_lower (percent_decode input) in
        if is_empty domain || existsb forbidden_domain domain then None
        else if ends_in_a_number domain then
          if forallb ipv4_number (labels domain)
             && Nat.leb (List.length (labels domain)) 4
             && ipv4_in_range (labels domain)
          then Some domain else None
        else Some domain
  end.

Definition single_dot (seg : list ascii) : bool :=
  existsb (String.eqb (text (map JS.to_lower seg))) ["."; "%2e"].

Definition double_dot (seg : list ascii) : bool :=
  existsb (String.eqb (text (map JS.to_lower seg)))
    [".."; ".%2e"; "%2e."; "%2e%2e"].

Definition shorten (path : list string) : list string :=
  removelast path.

(** Path state, one segment at a time; the last segment is the one not
    closed by a slash. *)
Fixpoint path_state (path : list string) (segments : list (list ascii))
  : list string :=
  match segments with
  | [] => path
  | seg :: rest =>
      let last := match rest with [] => true | _ => false end in
      if double_dot seg then
        path_state
          (if last then shorten path ++ [EmptyString] else shorten path) rest
      else if single_dot seg then
        path_state (if last then path ++ [EmptyString] else path) rest
      else path_state (path ++ [text (percent_encode path_set seg)]) rest
  end.

Definition ends_path (c : ascii) : bool := JS.one_of "?#" c.

(** Path start state and path state on what follows the authority. *)
Definition path_of (special : bool) (s : list ascii) : list string :=
  let ptext := fst (break_at ends_path s) in
  let body :=
    match ptext with
    | c :: rest => if is_slash special c then rest else ptext
    | [] => []
    end in
  if negb special && is_empty ptext then []
  else path_state [] (split_on (is_slash special) [] body).

(** The URL path serializer. *)
Definition serialize_path (path : list string) : string :=
  String.concat EmptyString (map (fun seg => String "/" seg) path).

Definition make (scheme : list ascii) (host : list ascii)
  (path : list string) : URL :=
  {| protocol := (text scheme ++ ":")%string;
     hostname := text host;
     pathname := serialize_path path |}.

(** Authority state, host state and port state. *)
Definition authority (scheme : list ascii) (special : bool)
  (s : list ascii) : option URL :=
  let (auth, tail) :=
    break_at (fun c => is_slash special c || ends_path c) s in
  let hostport :=
    match after_last "@" auth with
    | Some hp => if is_empty hp then None else Some hp
    | None => Some auth
    end in
  match hostport with
  | None => None
  | Some hp =>
      let (h, port) := host_state false hp in
      let ok :=
        match port with
        | Some p => negb (is_empty h) && port_ok p
        | None => negb (special && is_empty h)
        end in
      if ok then
        match host_parse (negb special) h with
        | Some host => Some (make scheme host (path_of special tail))
        | None => None
        end
      else None
  end.

(** File state, file slash state and file host state. *)
Definition file (scheme : list ascii) (s : list ascii) : option URL :=
  match s with
  | c1 :: c2 :: rest =>
      if is_slash true c1 && is_slash true c2 then
        let (h, tail) :=
          break_at (fun c => is_slash true c || ends_path c) rest in
        if is_empty h then Some (make scheme [] (path_of true tail))
        else
          match host_parse false h with
          | Some host =>
              let host' :=
                if String.eqb (text host) "localhost" then [] else host in
              Some (make scheme host' (path_of true tail))
          | None => None
          end
      else Some (make scheme [] (path_of true s))
  | _ => Some (make scheme [] (path_of true s))
  end.

(** [new URL(input)]. *)
Definition parse (input : string) : option URL :=
  match scheme_start_state (preprocess (chars input)) with
  | None => None
  | Some (scheme, rest) =>
      if String.eqb (text scheme) "file" then file scheme rest
      else if is_special (text scheme) then
        authority scheme true (drop_while (is_slash true) rest)
      else
        match rest with
        | "/"%char :: "/"%char :: rest' => authority scheme false rest'
        | "/"%char :: _ => Some (make scheme [] (path_of false rest))
        | _ =>
            Some {| protocol := (text scheme ++ ":")%string;
                    hostname := EmptyString;
                    pathname :=
                      text (percent_encode c0_control_set
                              (fst (break_at ends_path rest))) |}
        end
  end.

End Whatwg.

(* ------------------------------------------------------------------ *)
(** ** Data model                                                      *)
(* ------------------------------------------------------------------ *)

(** Modelled from the spec: the enumerations of [src/app/enums], which
    are not among the sources.  Their members are the ones the service
    names: the three states of an event, its three types (the spec's
    identity retrieval, identity validation and resource fetch) and the
    four kinds of search term. *)
Inductive ESearchStates : Type := Loading | Success | Failure.

Inductive ESearchTypes : Type :=
  SteamIDRetrieval | SteamIDValidation | SteamLibraryFetch.

Inductive ESteamIDTypes : Type :=
  ID64 | Nickname | ProfileURL | ProfilePermalink.

(** What a promise of the service can be rejected with: the four errors
    the service constructs (the classes of [src/app/errors], which are not
    among the sources, each built from its message), the [TypeError] of
    the platform ([new URL] on a string it cannot parse, [.length] of
    [undefined]) and a failure of the transport. *)
Inductive Error : Type :=
| InvalidSteamID64Error (message : string)
| InvalidNicknameError (message : string)
| InvalidProfileURLError (message : string)
| InvalidPermalinkError (message : string)
| TypeError
| HttpErrorResponse (status : nat).

(** The [response] member of a body the identity service answers with:
    [{ response: { steamid?, players?, games? } }].  The elements of the
    arrays are not inspected and are kept as their JSON text. *)
Record Response : Type := {
  steamid : JS.value;
  players : option (list string);
  games : option (list string)
}.

Record Meta : Type := {
  input : JS.value;
  idtype : option ESteamIDTypes
}.

(** [details.result] is the resolved Steam ID (possibly [undefined]) or
    the body of the owned-games answer. *)
Inductive Result : Type :=
| SteamID (id : JS.value)
| Library (body : Response).

Record Details : Type := {
  result : option Result;
  error : option Error;
  meta : option Meta
}.

Record ISearchResult : Type := {
  state : ESearchStates;
  type : ESearchTypes;
  details : Details
}.

(** What the service does that can be observed from outside: it emits on
    [searchEvent], and it issues GET requests. *)
Inductive Action : Type :=
| Emit (event : ISearchResult)
| Get (url : string).

Inductive Settled (A E : Type) : Type :=
| Fulfilled (a : A)
| Rejected (reason : E).

Arguments Fulfilled {A E} a.
Arguments Rejected {A E} reason.

(** A promise, run to the end: what was done, in order, and how the
    promise settled. *)
Definition Promise (E A : Type) : Type := (list Action * Settled A E)%type.

Definition ret {E A} (a : A) : Promise E A := ([], Fulfilled a).

Definition throw {E A} (e : E) : Promise E A := ([], Rejected e).

(** [p.then(f, g)]. *)
Definition settle {E A E' B} (p : Promise E A)
  (f : A -> Promise E' B) (g : E -> Promise E' B) : Promise E' B :=
  let (done, s) := p in
  let (more, s') := match s with Fulfilled a => f a | Rejected e => g e end in
  (done ++ more, s').

(** [await]: a rejection is thrown on. *)
Definition bind {E A B} (p : Promise E A) (f : A -> Promise E B)
  : Promise E B :=
  settle p f throw.

Notation "x <- p ;; q" := (bind p (fun x => q))
  (at level 61, p at next level, right associativity).
Notation "p ;; q" := (bind p (fun _ => q))
  (at level 61, right associativity).

Definition emit {E} (event : ISearchResult) : Promise E unit :=
  ([Emit event], Fulfilled tt).

Definition when {E} (b : bool) (p : Promise E unit) : Promise E unit :=
  if b then p else ret tt.

(** Strict equality of a string-or-undefined with a string. *)
Definition strict_eq (v : JS.value) (s : string) : bool :=
  match v with
  | Some s' => String.eqb s' s
  | None => false
  end.

(** [a.length] of an array that may be [undefined]. *)
Definition array_length {A} (a : option (list A)) : Promise Error nat :=
  match a with
  | Some l => ret (List.length l)
  | None => throw TypeError
  end.

Module Validator.

(** Modelled from the spec: [Validator.isNumeric] of
    [src/app/helpers/validator], which is not among the sources.  The
    spec takes a term for a numeric ID when it is entirely numeric
    digits. *)
Definition isNumeric (s : string) : bool :=
  forallb JS.is_digit (list_ascii_of_string s).

End Validator.

(** The configuration [environment] of [src/environments/environment],
    which is not among the sources: the three members the service
    reads.  The service is stated for any value of it. *)
Record Environment : Type := {
  cors : string;
  apiEndpoint : string;
  apiKey : string
}.

(** The state of a [SearchService] the pipeline reads: the activation
    flag, [undefined] until somebody assigns it. *)
Record SearchService : Type := {
  searchActivated : option bool
}.

(** The constructor creates the event emitter and nothing else. *)
Definition constructor : SearchService := {| searchActivated := None |}.

(** [if (this.searchActivated)]. *)
Definition activated (this : SearchService) : bool :=
  match searchActivated this with
  | Some b => b
  | None => false
  end.

(** The URL expression of [getSteamID], a global one:
    [(http(s)?:\/\/.)?(www\.)?[-a-zA-Z0-9@:%._\+~#=]{2,256}\.[a-z]{2,6}\b]
    followed by the starred group of [[-a-zA-Z0-9@:%_\+.~#?&//=]]. *)
Definition regex : Regex.regex :=
  let host_char c := JS.is_alnum c || JS.one_of "-@:%._+~#=" c in
  let tail_char c := JS.is_alnum c || JS.one_of "-@:%_+.~#?&/=" c in
  Regex.Cat
    (Regex.Opt
       (Regex.Cat (Regex.lit "http")
          (Regex.Cat (Regex.Opt (Regex.Chr "s"))
             (Regex.Cat (Regex.lit "://") Regex.Dot))))
    (Regex.Cat (Regex.Opt (Regex.lit "www."))
       (Regex.Cat (Regex.Rep 2 256 (Regex.Class host_char))
          (Regex.Cat (Regex.Chr ".")
             (Regex.Cat (Regex.Rep 2 6 (Regex.Class JS.is_lower))
                (Regex.Cat Regex.WordBoundary
                   (Regex.Star (Regex.Class tail_char))))))).

(* ------------------------------------------------------------------ *)
(** ** The service                                                     *)
(* ------------------------------------------------------------------ *)

Section SearchService.

(** The collaborators of the service: its configuration, the transport
    ([this.http.get(url).toPromise()], by the promise it returns) and
    the platform's URL constructor ([None] when it throws). *)
Variable environment : Environment.
Variable http_get : string -> Settled Response Error.
Variable newURL : string -> option URL.

Definition get (url : string) : Promise Error Response :=
  ([Get url], http_get url).

Definition ResolveVanityURL (input : JS.value) : string :=
  JS.template
    [cors environment; apiEndpoint environment;
     "ISteamUser/ResolveVanityURL/v0001/?key="; apiKey environment;
     "&vanityurl="; JS.to_string input].

Definition GetPlayerSummaries (id : JS.value) : string :=
  JS.template
    [cors environment; apiEndpoint environment;
     "ISteamUser/GetPlayerSummaries/v0002/?key="; apiKey environment;
     "&steamids="; JS.to_string id].

Definition GetOwnedGames (steamId : JS.value) : string :=
  JS.template
    [cors environment; apiEndpoint environment;
     "IPlayerService/GetOwnedGames/v0001/?key="; apiKey environment;
     "&steamid="; JS.to_string steamId; "&format=json"].

Definition loading (type : ESearchTypes) (input : JS.value)
  (idtype : ESteamIDTypes) : ISearchResult :=
  {| state := Loading;
     type := type;
     details := {| result := None;
                   error := None;
                   meta := Some {| input := input;
                                   idtype := Some idtype |} |} |}.

Definition getSteamIDFromName (input : JS.value) (type : ESteamIDTypes)
  : Promise Error Response :=
  emit (loading SteamIDRetrieval input type) ;;
  get (ResolveVanityURL input).

Definition isValidID (id : JS.value) (type : ESteamIDTypes)
  : Promise Error Response :=
  emit (loading SteamIDValidation id type) ;;
  get (GetPlayerSummaries id).

Definition getOwnedGames (steamId : JS.value) : Promise Error Response :=
  get (GetOwnedGames steamId).

(** The route of a URL: the non-empty pieces of its path. *)
Definition route_of (url : URL) : list string :=
  filter (fun str => Nat.ltb 0 (String.length str))
    (JS.split "/" (pathname url)).

(** The promise settles with the Steam ID, or with [undefined] where the
    body of the function ends without a [return]. *)
Definition getSteamID (searchTerm : string) : Promise Error JS.value :=
  if Nat.ltb 0 (String.length searchTerm) then
    if Validator.isNumeric searchTerm then
      validity <- isValidID (Some searchTerm) ID64 ;;
      length <- array_length (players validity) ;;
      if Nat.ltb 0 length then ret (Some searchTerm)
      else throw (InvalidSteamID64Error
                    (JS.template ["Steam ID64 “"; searchTerm; "” is invalid"]))
    else
      if Regex.matches regex searchTerm then
        match newURL searchTerm with
        | None => throw TypeError
        | Some url =>
            if JS.includes "steamcommunity" (hostname url) then
              let route := route_of url in
              if strict_eq (nth_error route 0) "id" then
                res <- getSteamIDFromName (nth_error route 1) ProfileURL ;;
                let steamid := steamid res in
                if JS.truthy steamid then ret steamid
                else throw (InvalidProfileURLError
                              (JS.template
                                 ["Profile URL “"; searchTerm; "” is invalid"]))
              else if strict_eq (nth_error route 0) "profiles" then
                validity <- isValidID (nth_error route 1) ProfilePermalink ;;
                length <- array_length (players validity) ;;
                if Nat.ltb 0 length then ret (nth_error route 1)
                else throw (InvalidPermalinkError
                              (JS.template
                                 ["Permalink “"; searchTerm; "” is invalid"]))
              else ret None
            else ret None
        end
      else
        res <- getSteamIDFromName (Some searchTerm) Nickname ;;
        let steamid := steamid res in
        if JS.truthy steamid then ret steamid
        else throw (InvalidNicknameError
                      (JS.template
                         ["The nickname “"; searchTerm; "” is invalid"]))
  else ret None.

Definition retrieved (result : JS.value) (searchTerm : string)
  : ISearchResult :=
  {| state := Success;
     type := SteamIDRetrieval;
     details := {| result := Some (SteamID result);
                   error := None;
                   meta := Some {| input := Some searchTerm;
                                   idtype := None |} |} |}.

Definition not_retrieved (e : Error) (searchTerm : string)
  : ISearchResult :=
  {| state := Failure;
     type := SteamIDRetrieval;
     details := {| result := None;
                   error := Some e;
                   meta := Some {| input := Some searchTerm;
                                   idtype := None |} |} |}.

Definition fetched (games : Response) : ISearchResult :=
  {| state := Success;
     type := SteamLibraryFetch;
     details := {| result := Some (Library games);
                   error := None;
                   meta := None |} |}.

Definition not_fetched (e : Error) : ISearchResult :=
  {| state := Failure;
     type := SteamLibraryFetch;
     details := {| result := None; error := Some e; meta := None |} |}.

(** [resolve()] and [reject()] of the promise [start] returns: neither
    carries a value. *)
Definition resolve : Promise unit unit := ([], Fulfilled tt).
Definition reject : Promise unit unit := ([], Rejected tt).

(** [this] is the service as it is when the callbacks of [getSteamID]
    run: the flag is read there, after the remote call of the
    resolution.  The callback of [then] does not throw and does not
    return the promise of the fetch, so the [catch] after it sees the
    rejections of [getSteamID] only. *)
Definition start (this : SearchService) (searchTerm : string)
  : Promise unit unit :=
  settle (getSteamID searchTerm)
    (fun result =>
       when (activated this) (emit (retrieved result searchTerm)) ;;
       settle (getOwnedGames result)
         (fun games => emit (fetched games) ;; resolve)
         (fun error => emit (not_fetched error) ;; reject))
    (fun error =>
       when (activated this) (emit (not_retrieved error searchTerm)) ;;
       reject).

End SearchService.

(* ------------------------------------------------------------------ *)
(** ** Sample collaborators                                            *)
(* ------------------------------------------------------------------ *)

Module Sample.

Definition environment : Environment :=
  {| cors := "https://cors.test/";
     apiEndpoint := "https://api.test/";
     apiKey := "KEY" |}.

Definition no_response : Response :=
  {| steamid := None; players := None; games := None |}.

(** A transport that answers every request with the same body. *)
Definition answers (body : Response) : string -> Settled Response Error :=
  fun _ => Fulfilled body.

(** A transport that fails every request. *)
Definition fails (status : nat) : string -> Settled Response Error :=
  fun _ => Rejected (HttpErrorResponse status).

Definition known_player : Response :=
  {| steamid := None; players := Some ["{}"]; games := Some ["{}"] |}.

Definition unknown_player : Response :=
  {| steamid := None; players := Some []; games := None |}.

Definition resolved_name : Response :=
  {| steamid := Some "76561197960287930"; players := None; games := None |}.

Definition on : SearchService := {| searchActivated := Some true |}.
Definition off : SearchService := {| searchActivated := Some false |}.

End Sample.

(* ------------------------------------------------------------------ *)
(** ** Reading a trace                                                 *)
(* ------------------------------------------------------------------ *)

(** The URLs requested, in order. *)
Definition requests (trace : list Action) : list string :=
  flat_map (fun a => match a with Get url => [url] | Emit _ => [] end) trace.

(** The events emitted, in order. *)
Definition events (trace : list Action) : list ISearchResult :=
  flat_map (fun a => match a with Emit e => [e] | Get _ => [] end) trace.

(** A Success or Failure event of the Steam ID retrieval. *)
Definition retrieval_outcome (a : Action) : bool :=
  match a with
  | Emit {| state := Success; type := SteamIDRetrieval |} => true
  | Emit {| state := Failure; type := SteamIDRetrieval |} => true
  | _ => false
  end.

(** An event of the library fetch. *)
Definition fetch_event (a : Action) : bool :=
  match a with
  | Emit {| type := SteamLibraryFetch |} => true
  | _ => false
  end.

(** The event that reports how the owned-games request ended. *)
Definition fetch_report (answer : Settled Response Error) : ISearchResult :=
  match answer with
  | Fulfilled games => fetched games
  | Rejected e => not_fetched e
  end.

(** How [start] settles after the owned-games request. *)
Definition fetch_settles (answer : Settled Response Error) : Settled unit unit :=
  match answer with
  | Fulfilled _ => Fulfilled tt
  | Rejected _ => Rejected tt
  end.

(** The four errors the service constructs itself. *)
Definition typed (e : Error) : bool :=
  match e with
  | InvalidSteamID64Error _ | InvalidNicknameError _
  | InvalidProfileURLError _ | InvalidPermalinkError _ => true
  | TypeError | HttpErrorResponse _ => false
  end.

(** The message such an error was built from. *)
Definition message (e : Error) : string :=
  match e with
  | InvalidSteamID64Error m | InvalidNicknameError m
  | InvalidProfileURLError m | InvalidPermalinkError m => m
  | TypeError | HttpErrorResponse _ => EmptyString
  end.

(** How many actions of a trace satisfy a test. *)
Definition count (p : Action -> bool) (trace : list Action) : nat :=
  List.length (filter p trace).

Definition is_request (a : Action) : bool :=
  match a with Get _ => true | Emit _ => false end.

Definition is_event (a : Action) : bool :=
  match a with Emit _ => true | Get _ => false end.

(** A successful match hands the continuation a tail of the subject. *)
Definition reaches (m : Regex.cont -> Regex.cont) : Prop :=
  forall k prev s,
    m k prev s = true ->
    exists prev' front s', s = front ++ s' /\ k prev' s' = true.

(* ------------------------------------------------------------------ *)
(** ** Properties                                                      *)
(* ------------------------------------------------------------------ *)

Unset Implicit Arguments.

Section Properties.

Variable environment : Environment.
Variable http_get : string -> Settled Response Error.
Variable newURL : string -> option URL.

Local Abbreviation getSteamID' := (getSteamID environment http_get newURL).
Local Abbreviation start' := (start environment http_get newURL).

Ltac run :=
  unfold start, getSteamID, getOwnedGames,
    getSteamIDFromName, isValidID, get, array_length, when, resolve,
    reject, bind, settle, emit, ret, throw;
  simpl.

Ltac split_on_tests :=
  repeat match goal with
         | |- context [match ?x with _ => _ end] =>
             lazymatch x with
             | context [match _ with _ => _ end] => fail
             | _ => destruct x eqn:?; simpl
             end
         end.

(** The resolution does nothing, or announces one remote call and makes
    it. *)
Lemma getSteamID_trace (searchTerm : string) :
  fst (getSteamID' searchTerm) = []
  \/ exists input idtype,
      fst (getSteamID' searchTerm)
      = [Emit (loading SteamIDRetrieval input idtype);
         Get (ResolveVanityURL environment input)]
      \/ fst (getSteamID' searchTerm)
         = [Emit (loading SteamIDValidation input idtype);
            Get (GetPlayerSummaries environment input)].
Proof.
  run. split_on_tests; eauto 6.
Qed.

(** [start], by the way [getSteamID] settled. *)
Lemma start_unfold (this : SearchService) (searchTerm : string) :
  start' this searchTerm
  = match snd (getSteamID' searchTerm) with
    | Fulfilled result =>
        let answer := http_get (GetOwnedGames environment result) in
        (fst (getSteamID' searchTerm)
           ++ (if activated this
               then [Emit (retrieved result searchTerm)] else [])
           ++ [Get (GetOwnedGames environment result);
               Emit (fetch_report answer)],
         fetch_settles answer)
    | Rejected e =>
        (fst (getSteamID' searchTerm)
           ++ (if activated this
               then [Emit (not_retrieved e searchTerm)] else []),
         Rejected tt)
    end.
Proof.
  unfold start, settle.
  destruct (getSteamID' searchTerm) as [done [result | e]]; simpl.
  - unfold getOwnedGames, get, bind, settle, when, emit, ret; simpl.
    destruct (activated this),
      (http_get (GetOwnedGames environment result)); reflexivity.
  - unfold bind, settle, when, emit, ret, reject.
    destruct (activated this); reflexivity.
Qed.

Lemma getSteamID_no_outcome (searchTerm : string) :
  Forall (fun a => retrieval_outcome a = false)
    (fst (getSteamID' searchTerm)).
Proof.
  destruct (getSteamID_trace searchTerm) as [E | (i & t & [E | E])];
    rewrite E; repeat constructor.
Qed.

Lemma getSteamID_no_fetch_event (searchTerm : string) :
  Forall (fun a => fetch_event a = false) (fst (getSteamID' searchTerm)).
Proof.
  destruct (getSteamID_trace searchTerm) as [E | (i & t & [E | E])];
    rewrite E; repeat constructor.
Qed.

Lemma filter_all {A} (p : A -> bool) (l : list A) :
  Forall (fun a => p a = false) l -> filter (fun a => negb (p a)) l = l.
Proof.
  induction 1 as [| a l Ha _ IH]; simpl; [reflexivity |].
  rewrite Ha; simpl; now rewrite IH.
Qed.

Lemma requests_app (t u : list Action) :
  requests (t ++ u) = requests t ++ requests u.
Proof. apply flat_map_app. Qed.

Lemma start_off_no_outcome (this : SearchService) (searchTerm : string) :
  activated this = false ->
  Forall (fun a => retrieval_outcome a = false)
    (fst (start' this searchTerm)).
Proof.
  intros Hoff. rewrite start_unfold, Hoff.
  pose proof (getSteamID_no_outcome searchTerm) as Hq.
  destruct (snd (getSteamID' searchTerm)) as [result | e]; simpl.
  - apply Forall_app; split; [exact Hq |].
    destruct (http_get (GetOwnedGames environment result));
      repeat constructor.
  - rewrite app_nil_r. exact Hq.
Qed.

Lemma append_cancel (p a b : string) :
  (p ++ a)%string = (p ++ b)%string -> a = b.
Proof.
  induction p as [| c p IH]; simpl; intros H; [exact H |].
  injection H as H. auto.
Qed.

Lemma GetOwnedGames_not_ResolveVanityURL (id input : JS.value) :
  GetOwnedGames environment id <> ResolveVanityURL environment input.
Proof.
  unfold GetOwnedGames, ResolveVanityURL, JS.template; simpl.
  intros H. do 2 apply append_cancel in H. discriminate H.
Qed.

Lemma GetOwnedGames_not_GetPlayerSummaries (id input : JS.value) :
  GetOwnedGames environment id <> GetPlayerSummaries environment input.
Proof.
  unfold GetOwnedGames, GetPlayerSummaries, JS.template; simpl.
  intros H. do 2 apply append_cancel in H. discriminate H.
Qed.

Lemma getSteamID_no_GetOwnedGames (searchTerm : string) (id : JS.value) :
  ~ In (Get (GetOwnedGames environment id)) (fst (getSteamID' searchTerm)).
Proof.
  destruct (getSteamID_trace searchTerm) as [E | (i & t & [E | E])];
    rewrite E; simpl; intros H.
  - exact H.
  - destruct H as [H | [H | []]]; [discriminate H |].
    injection H as H. symmetry in H.
    exact (GetOwnedGames_not_ResolveVanityURL _ _ H).
  - destruct H as [H | [H | []]]; [discriminate H |].
    injection H as H. symmetry in H.
    exact (GetOwnedGames_not_GetPlayerSummaries _ _ H).
Qed.

(** C1. Whatever the search term and however the resolution ends: with
    the activation flag off, no Success or Failure event of the Steam ID
    retrieval is emitted; with any other value of the flag the trace is
    the same once those events are left out, so the Loading events, the
    events of the library fetch and the remote calls are the same, and
    [start] settles the same way; on a resolved ID the owned-games
    request and the event of the library fetch follow the resolution
    also with the flag off.  Whatever the flag, the trace of [start]
    starts with all that the resolution did, fulfilled or rejected; the
    resolution did nothing, or emitted one Loading event and made the
    remote call it announces; and every remote call in the trace of
    [start] is the owned-games request or is a call of the resolution,
    with its Loading event just before it at the head of the trace. *)
Theorem activation_gates_retrieval_outcomes_only
  (this : SearchService) (searchTerm : string) :
  activated this = false ->
  Forall (fun a => retrieval_outcome a = false)
    (fst (start' this searchTerm))
  /\ (forall other : SearchService,
        filter (fun a => negb (retrieval_outcome a))
          (fst (start' other searchTerm))
        = fst (start' this searchTerm)
        /\ requests (fst (start' other searchTerm))
           = requests (fst (start' this searchTerm))
        /\ snd (start' other searchTerm) = snd (start' this searchTerm))
  /\ (forall result : JS.value,
        snd (getSteamID' searchTerm) = Fulfilled result ->
        fst (start' this searchTerm)
        = fst (getSteamID' searchTerm)
            ++ [Get (GetOwnedGames environment result);
                Emit (fetch_report
                        (http_get (GetOwnedGames environment result)))])
  /\ (forall other : SearchService,
        exists rest,
          fst (start' other searchTerm)
          = fst (getSteamID' searchTerm) ++ rest)
  /\ (fst (getSteamID' searchTerm) = []
      \/ exists input idtype,
          fst (getSteamID' searchTerm)
          = [Emit (loading SteamIDRetrieval input idtype);
             Get (ResolveVanityURL environment input)]
          \/ fst (getSteamID' searchTerm)
             = [Emit (loading SteamIDValidation input idtype);
                Get (GetPlayerSummaries environment input)])
  /\ (forall (other : SearchService) (url : string),
        In (Get url) (fst (start' other searchTerm)) ->
        (exists result, url = GetOwnedGames environment result)
        \/ exists input idtype rest,
            (fst (start' other searchTerm)
             = Emit (loading SteamIDRetrieval input idtype)
                 :: Get url :: rest
             /\ url = ResolveVanityURL environment input)
            \/ (fst (start' other searchTerm)
                = Emit (loading SteamIDValidation input idtype)
                    :: Get url :: rest
                /\ url = GetPlayerSummaries environment input)).
Proof.
  intros Hoff. split; [now apply start_off_no_outcome |].
  split; [| split; [| split; [| split]]].
  - intros other. rewrite !start_unfold, Hoff.
    pose proof (filter_all _ _ (getSteamID_no_outcome searchTerm)) as Hf.
    destruct (snd (getSteamID' searchTerm)) as [result | e]; simpl.
    + rewrite !requests_app, filter_app, Hf.
      destruct (activated other),
        (http_get (GetOwnedGames environment result)); simpl; auto.
    + rewrite !requests_app, filter_app, Hf.
      destruct (activated other); simpl; auto.
  - intros result Hres. rewrite start_unfold, Hres, Hoff. reflexivity.
  - intros other. rewrite start_unfold.
    destruct (snd (getSteamID' searchTerm)); cbn [fst]; eauto.
  - apply getSteamID_trace.
  - intros other url. rewrite start_unfold.
    destruct (getSteamID_trace searchTerm) as [E | (input & idtype & [E | E])];
      destruct (snd (getSteamID' searchTerm)) as [result | e]; cbn [fst];
      rewrite E; destruct (activated other); simpl; intros Hin;
      repeat match goal with
             | H : _ \/ _ |- _ => destruct H as [H | H]
             | H : False |- _ => destruct H
             | H : Emit _ = Get _ |- _ => discriminate H
             | H : Get _ = Get _ |- _ => injection H as <-
             end;
      try (left; now eexists);
      right; exists input, idtype; eexists;
      first [left; split; reflexivity | right; split; reflexivity].
Qed.

(** C2. On the empty term the resolution ends with [undefined] and
    [start] goes on: it emits the Success event of the retrieval when
    the flag is on, requests the owned games of [undefined] and emits
    the event of the library fetch; it settles as that request does. *)
Theorem empty_term_fetches_undefined (this : SearchService) :
  start' this EmptyString
  = ((if activated this
      then [Emit (retrieved None EmptyString)] else [])
       ++ [Get (GetOwnedGames environment None);
           Emit (fetch_report (http_get (GetOwnedGames environment None)))],
     fetch_settles (http_get (GetOwnedGames environment None)))
  /\ requests (fst (start' this EmptyString))
     = [GetOwnedGames environment None]
  /\ events (fst (start' this EmptyString)) <> [].
Proof.
  rewrite start_unfold. simpl.
  destruct (activated this); simpl; repeat split; discriminate.
Qed.

(** C4. A term of URL shape whose host is not of the community domain,
    or whose route starts with neither [id] nor [profiles]: the
    resolution ends with [undefined] and no error, and [start] goes on
    as on a resolved ID, requesting the owned games of [undefined] and
    emitting the event of the library fetch. *)
Theorem unrecognised_url_fetches_undefined
  (this : SearchService) (searchTerm : string) (url : URL) :
  0 < String.length searchTerm ->
  Validator.isNumeric searchTerm = false ->
  Regex.matches regex searchTerm = true ->
  newURL searchTerm = Some url ->
  JS.includes "steamcommunity" (hostname url) = false
  \/ (strict_eq (nth_error (route_of url) 0) "id" = false
      /\ strict_eq (nth_error (route_of url) 0) "profiles" = false) ->
  getSteamID' searchTerm = ([], Fulfilled None)
  /\ start' this searchTerm
     = ((if activated this
         then [Emit (retrieved None searchTerm)] else [])
          ++ [Get (GetOwnedGames environment None);
              Emit (fetch_report
                      (http_get (GetOwnedGames environment None)))],
        fetch_settles (http_get (GetOwnedGames environment None))).
Proof.
  intros Hlen Hnum Hre Hurl Hcase.
  assert (E : getSteamID' searchTerm = ([], Fulfilled None)).
  { unfold getSteamID.
    apply Nat.ltb_lt in Hlen. rewrite Hlen, Hnum, Hre, Hurl.
    destruct Hcase as [Hhost | [Hid Hprofiles]].
    - now rewrite Hhost.
    - rewrite Hid, Hprofiles.
      now destruct (JS.includes "steamcommunity" (hostname url)). }
  split; [exact E |]. rewrite start_unfold, E. reflexivity.
Qed.

(** C5. A non-empty, purely numeric term: the resolution announces and
    makes one remote call, the validation lookup of the term; when the
    answer lists at least one player the resolution ends with the term
    itself, when it lists none it is rejected with the invalid ID64
    error. *)
Theorem numeric_term_is_validated (searchTerm : string) :
  0 < String.length searchTerm ->
  Validator.isNumeric searchTerm = true ->
  fst (getSteamID' searchTerm)
  = [Emit (loading SteamIDValidation (Some searchTerm) ID64);
     Get (GetPlayerSummaries environment (Some searchTerm))]
  /\ requests (fst (getSteamID' searchTerm))
     = [GetPlayerSummaries environment (Some searchTerm)]
  /\ (forall validity list,
        http_get (GetPlayerSummaries environment (Some searchTerm))
        = Fulfilled validity ->
        players validity = Some list ->
        snd (getSteamID' searchTerm)
        = match list with
          | _ :: _ => Fulfilled (Some searchTerm)
          | [] =>
              Rejected
                (InvalidSteamID64Error
                   (JS.template
                      ["Steam ID64 “"; searchTerm; "” is invalid"]))
          end).
Proof.
  intros Hlen Hnum. apply Nat.ltb_lt in Hlen.
  unfold getSteamID. rewrite Hlen, Hnum. run.
  destruct (http_get (GetPlayerSummaries environment (Some searchTerm)))
    as [validity | e] eqn:Hget; simpl.
  - destruct (players validity) as [list |] eqn:Hplayers; simpl.
    + destruct list; simpl; repeat split; intros v l Hv Hl;
        injection Hv as <-; rewrite Hplayers in Hl; injection Hl as <-;
        reflexivity.
    + repeat split. intros v l Hv Hl. injection Hv as <-. congruence.
  - repeat split. intros v l Hv. discriminate Hv.
Qed.

(** C6. A term of URL shape on the community domain whose route starts
    with [id]: the resolution announces and makes one remote call, the
    vanity resolution of the second piece of the route; when the answer
    carries a steamid (a non-empty one) the resolution ends with it,
    otherwise it is rejected with the invalid profile URL error. *)
Theorem profile_url_is_resolved (searchTerm : string) (url : URL) :
  0 < String.length searchTerm ->
  Validator.isNumeric searchTerm = false ->
  Regex.matches regex searchTerm = true ->
  newURL searchTerm = Some url ->
  JS.includes "steamcommunity" (hostname url) = true ->
  nth_error (route_of url) 0 = Some "id" ->
  let name := nth_error (route_of url) 1 in
  fst (getSteamID' searchTerm)
  = [Emit (loading SteamIDRetrieval name ProfileURL);
     Get (ResolveVanityURL environment name)]
  /\ (forall res,
        http_get (ResolveVanityURL environment name) = Fulfilled res ->
        snd (getSteamID' searchTerm)
        = if JS.truthy (steamid res) then Fulfilled (steamid res)
          else Rejected
                 (InvalidProfileURLError
                    (JS.template
                       ["Profile URL “"; searchTerm; "” is invalid"]))).
Proof.
  intros Hlen Hnum Hre Hurl Hhost Hid. apply Nat.ltb_lt in Hlen.
  unfold getSteamID. rewrite Hlen, Hnum, Hre, Hurl, Hhost, Hid.
  generalize (nth_error (route_of url) 1). intros name. run.
  destruct (http_get (ResolveVanityURL environment name)) as [res | e];
    simpl.
  - split; [now destruct (JS.truthy (steamid res)) |].
    intros r Hr. injection Hr as <-.
    now destruct (JS.truthy (steamid res)).
  - split; [reflexivity |]. intros r Hr. discriminate Hr.
Qed.

(** C7. A term of URL shape on the community domain whose route starts
    with [profiles]: the resolution announces and makes one remote
    call, the validation lookup of the second piece of the route; when
    the answer lists at least one player the resolution ends with that
    piece, when it lists none it is rejected with the invalid permalink
    error. *)
Theorem permalink_is_validated (searchTerm : string) (url : URL) :
  0 < String.length searchTerm ->
  Validator.isNumeric searchTerm = false ->
  Regex.matches regex searchTerm = true ->
  newURL searchTerm = Some url ->
  JS.includes "steamcommunity" (hostname url) = true ->
  nth_error (route_of url) 0 = Some "profiles" ->
  let id := nth_error (route_of url) 1 in
  fst (getSteamID' searchTerm)
  = [Emit (loading SteamIDValidation id ProfilePermalink);
     Get (GetPlayerSummaries environment id)]
  /\ (forall validity list,
        http_get (GetPlayerSummaries environment id) = Fulfilled validity ->
        players validity = Some list ->
        snd (getSteamID' searchTerm)
        = match list with
          | _ :: _ => Fulfilled id
          | [] =>
              Rejected
                (InvalidPermalinkError
                   (JS.template
                      ["Permalink “"; searchTerm; "” is invalid"]))
          end).
Proof.
  intros Hlen Hnum Hre Hurl Hhost Hid. apply Nat.ltb_lt in Hlen.
  unfold getSteamID. rewrite Hlen, Hnum, Hre, Hurl, Hhost, Hid.
  generalize (nth_error (route_of url) 1). intros id. run.
  destruct (http_get (GetPlayerSummaries environment id))
    as [validity | e] eqn:Hget; simpl.
  - destruct (players validity) as [list |] eqn:Hplayers; simpl.
    + destruct list; simpl; split; try reflexivity; intros v l Hv Hl;
        injection Hv as <-; rewrite Hplayers in Hl; injection Hl as <-;
        reflexivity.
    + split; [reflexivity |]. intros v l Hv Hl. injection Hv as <-.
      congruence.
  - split; [reflexivity |]. intros v l Hv. discriminate Hv.
Qed.

(** C8. A non-empty term that is neither numeric nor of URL shape: the
    resolution announces and makes one remote call, the vanity
    resolution of the whole term; when the answer carries a steamid (a
    non-empty one) the resolution ends with it, otherwise it is rejected
    with the invalid nickname error. *)
Theorem nickname_is_resolved (searchTerm : string) :
  0 < String.length searchTerm ->
  Validator.isNumeric searchTerm = false ->
  Regex.matches regex searchTerm = false ->
  fst (getSteamID' searchTerm)
  = [Emit (loading SteamIDRetrieval (Some searchTerm) Nickname);
     Get (ResolveVanityURL environment (Some searchTerm))]
  /\ (forall res,
        http_get (ResolveVanityURL environment (Some searchTerm))
        = Fulfilled res ->
        snd (getSteamID' searchTerm)
        = if JS.truthy (steamid res) then Fulfilled (steamid res)
          else Rejected
                 (InvalidNicknameError
                    (JS.template
                       ["The nickname “"; searchTerm; "” is invalid"]))).
Proof.
  intros Hlen Hnum Hre. apply Nat.ltb_lt in Hlen.
  unfold getSteamID. rewrite Hlen, Hnum, Hre. run.
  destruct (http_get (ResolveVanityURL environment (Some searchTerm)))
    as [res | e]; simpl.
  - split; [now destruct (JS.truthy (steamid res)) |].
    intros r Hr. injection Hr as <-.
    now destruct (JS.truthy (steamid res)).
  - split; [reflexivity |]. intros r Hr. discriminate Hr.
Qed.

(** C9. When the resolution is rejected, with one of the four typed
    errors or any other: [start] does what the resolution did, emits
    the Failure event of the retrieval carrying the error when the flag
    is on, and is rejected with no value; it requests no owned games
    and emits no event of the library fetch. *)
Theorem resolution_error_aborts
  (this : SearchService) (searchTerm : string) (e : Error) :
  snd (getSteamID' searchTerm) = Rejected e ->
  start' this searchTerm
  = (fst (getSteamID' searchTerm)
       ++ (if activated this
           then [Emit (not_retrieved e searchTerm)] else []),
     Rejected tt)
  /\ (forall id, ~ In (Get (GetOwnedGames environment id))
                   (fst (start' this searchTerm)))
  /\ Forall (fun a => fetch_event a = false) (fst (start' this searchTerm)).
Proof.
  intros Hrej. rewrite start_unfold, Hrej. split; [reflexivity |]. split.
  - intros id Hin. cbn [fst] in Hin. apply in_app_or in Hin.
    destruct Hin as [Hin | Hin].
    + exact (getSteamID_no_GetOwnedGames _ _ Hin).
    + destruct (activated this); simpl in Hin; [| exact Hin].
      destruct Hin as [Hin | []]. discriminate Hin.
  - cbn [fst]. apply Forall_app. split.
    + apply getSteamID_no_fetch_event.
    + destruct (activated this); repeat constructor.
Qed.

(** C10. The constructor leaves the activation flag unassigned, and on a
    service in that state [start] emits no Success or Failure event of
    the Steam ID retrieval, whatever the term and the answers. *)
Theorem fresh_service_suppresses_retrieval_outcomes (searchTerm : string) :
  searchActivated constructor = None
  /\ activated constructor = false
  /\ Forall (fun a => retrieval_outcome a = false)
       (fst (start' constructor searchTerm)).
Proof.
  split; [reflexivity |]. split; [reflexivity |].
  now apply start_off_no_outcome.
Qed.

End Properties.

(** Stripping leaves alone a text that ends with a character that is not
    stripped, whatever is put in front of it. *)
Lemma drop_while_app (p : ascii -> bool) (front back : list ascii) :
  Whatwg.drop_while p back = back ->
  exists front', Whatwg.drop_while p (front ++ back) = front' ++ back.
Proof.
  intros Hback. induction front as [| c front IH]; simpl.
  - exists []. exact Hback.
  - destruct (p c); [exact IH |]. now exists (c :: front).
Qed.

(** Three ways for a repetition to succeed: one more round, no more
    round, and the accepting continuation. *)
Lemma repeat_more (body : Regex.cont -> Regex.cont) (n lo : nat)
  (k : Regex.cont) (prev : option ascii) (s : list ascii) :
  body (Regex.repeat body n (Nat.pred lo) k) prev s = true ->
  Regex.repeat body (S n) lo k prev s = true.
Proof. intros H. simpl. now rewrite H. Qed.

Lemma repeat_stop (body : Regex.cont -> Regex.cont) (n : nat)
  (k : Regex.cont) (prev : option ascii) (s : list ascii) :
  k prev s = true -> Regex.repeat body n 0 k prev s = true.
Proof.
  intros H. destruct n; simpl; rewrite H; [reflexivity | apply orb_true_r].
Qed.

Lemma repeat_accepts (body : Regex.cont -> Regex.cont) (n : nat)
  (prev : option ascii) (s : list ascii) :
  Regex.repeat body n 0 (fun _ _ => true) prev s = true.
Proof. now apply repeat_stop. Qed.

Lemma step_cons (p : ascii -> bool) (k : Regex.cont) (c : ascii)
  (s : list ascii) :
  p c = true -> k (Some c) s = true -> Regex.step p k (c :: s) = true.
Proof. intros Hp Hk. simpl. now rewrite Hp, Hk. Qed.

Ltac one_more := apply repeat_more; apply step_cons; [reflexivity |].

(** The URL expression matches a profile URL without a scheme: the host
    class takes [steamcommunity], the letters take [com], and the word
    ends at the slash. *)
Lemma schemeless_profile_url_matches (name : string) :
  Regex.matches regex ("steamcommunity.com/id/" ++ name)%string = true.
Proof.
  unfold Regex.matches. simpl list_ascii_of_string.
  unfold Regex.search. apply orb_true_iff. left.
  cbn -[Regex.repeat Nat.eqb].
  do 14 one_more. apply repeat_stop.
  apply step_cons; [reflexivity |].
  do 3 one_more. apply repeat_stop.
  apply andb_true_intro. split; [reflexivity | apply repeat_accepts].
Qed.

(** The URL constructor fails on it: the text before the first slash has
    no colon, so there is no scheme, and there is no base. *)
Lemma schemeless_profile_url_unparsed (name : string) :
  Whatwg.parse ("steamcommunity.com/id/" ++ name)%string = None.
Proof.
  set (front := list_ascii_of_string "steamcommunity.com/id/").
  assert (E : exists rest,
             Whatwg.preprocess
               (Whatwg.chars ("steamcommunity.com/id/" ++ name)%string)
             = front ++ rest).
  { unfold Whatwg.preprocess, Whatwg.chars.
    change (list_ascii_of_string ("steamcommunity.com/id/" ++ name)%string)
      with (front ++ list_ascii_of_string name).
    change (Whatwg.drop_while Whatwg.c0_or_space
              (front ++ list_ascii_of_string name))
      with (front ++ list_ascii_of_string name).
    rewrite rev_app_distr.
    destruct (drop_while_app Whatwg.c0_or_space
                (rev (list_ascii_of_string name)) (rev front) eq_refl)
      as [kept ->].
    rewrite rev_app_distr, rev_involutive, filter_app.
    now exists (filter (fun c => negb (Whatwg.tab_or_newline c)) (rev kept)). }
  destruct E as [rest E]. unfold Whatwg.parse. rewrite E. reflexivity.
Qed.

(** C3. The URL expression takes a profile URL without a scheme, whatever
    the name in it, yet the URL constructor cannot parse it: the
    resolution is rejected with a [TypeError] before any remote call, and
    [start] reports it as a failure of the retrieval when the flag is on;
    so it is for the same URL with [www.] in front. *)
Theorem schemeless_profile_url_is_rejected
  (environment : Environment)
  (http_get : string -> Settled Response Error) (this : SearchService)
  (name : string) :
  let searchTerm := ("steamcommunity.com/id/" ++ name)%string in
  Regex.matches regex searchTerm = true
  /\ Whatwg.parse searchTerm = None
  /\ getSteamID environment http_get Whatwg.parse searchTerm
     = ([], Rejected TypeError)
  /\ start environment http_get Whatwg.parse this searchTerm
     = (if activated this
        then [Emit (not_retrieved TypeError searchTerm)] else [],
        Rejected tt)
  /\ getSteamID environment http_get Whatwg.parse
       "www.steamcommunity.com/id/gaben"
     = ([], Rejected TypeError).
Proof.
  intros searchTerm.
  pose proof (schemeless_profile_url_matches name) as Hre.
  pose proof (schemeless_profile_url_unparsed name) as Hurl.
  fold searchTerm in Hre, Hurl.
  assert (E : getSteamID environment http_get Whatwg.parse searchTerm
              = ([], Rejected TypeError)).
  { unfold getSteamID. rewrite Hre, Hurl. reflexivity. }
  repeat split; try assumption.
  rewrite start_unfold, E. reflexivity.
Qed.

(* ------------------------------------------------------------------ *)
(** ** The properties on sample searches                               *)
(* ------------------------------------------------------------------ *)

(** A valid ID64 searched with the flag off: no outcome of the retrieval
    is emitted. *)
Lemma activation_off_sample :
  activated Sample.off = false
  /\ Forall (fun a => retrieval_outcome a = false)
       (fst (start Sample.environment (Sample.answers Sample.known_player)
               Whatwg.parse Sample.off "76561197960435530")).
Proof.
  split; [reflexivity |].
  exact (proj1 (activation_gates_retrieval_outcomes_only
                  Sample.environment (Sample.answers Sample.known_player)
                  Whatwg.parse Sample.off "76561197960435530" eq_refl)).
Defined.

(** A profile URL of another site: the resolution ends with [undefined]. *)
Lemma unrecognised_url_sample :
  Whatwg.parse "https://example.com/id/gaben"
  = Some {| protocol := "https:";
            hostname := "example.com";
            pathname := "/id/gaben" |}
  /\ getSteamID Sample.environment (Sample.answers Sample.no_response)
       Whatwg.parse "https://example.com/id/gaben"
     = ([], Fulfilled None).
Proof.
  split; [reflexivity |].
  refine (proj1 (unrecognised_url_fetches_undefined
                   Sample.environment (Sample.answers Sample.no_response)
                   Whatwg.parse Sample.on
                   "https://example.com/id/gaben"
                   {| protocol := "https:";
                      hostname := "example.com";
                      pathname := "/id/gaben" |}
                   _ _ _ _ _)).
  - cbn. lia.
  - reflexivity.
  - vm_compute. reflexivity.
  - vm_compute. reflexivity.
  - left. reflexivity.
Defined.

(** A known ID64 resolves to itself. *)
Lemma numeric_term_sample :
  Validator.isNumeric "76561197960435530" = true
  /\ snd (getSteamID Sample.environment (Sample.answers Sample.known_player)
            Whatwg.parse "76561197960435530")
     = Fulfilled (Some "76561197960435530").
Proof.
  split; [reflexivity |].
  assert (Hlen : 0 < String.length "76561197960435530") by (cbn; lia).
  destruct (numeric_term_is_validated
              Sample.environment (Sample.answers Sample.known_player)
              Whatwg.parse "76561197960435530"
              Hlen eq_refl) as (_ & _ & H).
  exact (H Sample.known_player ["{}"] eq_refl eq_refl).
Defined.

(** A profile URL resolves to the steamid of its vanity name. *)
Lemma profile_url_sample :
  Whatwg.parse "https://steamcommunity.com/id/gaben"
  = Some {| protocol := "https:";
            hostname := "steamcommunity.com";
            pathname := "/id/gaben" |}
  /\ getSteamID Sample.environment (Sample.answers Sample.resolved_name)
       Whatwg.parse "https://steamcommunity.com/id/gaben"
     = ([Emit (loading SteamIDRetrieval (Some "gaben") ProfileURL);
         Get (ResolveVanityURL Sample.environment (Some "gaben"))],
        Fulfilled (Some "76561197960287930")).
Proof.
  split; [reflexivity |].
  assert (Hlen : 0 < String.length "https://steamcommunity.com/id/gaben")
    by (cbn; lia).
  assert (Hre : Regex.matches regex "https://steamcommunity.com/id/gaben"
                = true) by (vm_compute; reflexivity).
  destruct (profile_url_is_resolved
              Sample.environment (Sample.answers Sample.resolved_name)
              Whatwg.parse "https://steamcommunity.com/id/gaben"
              {| protocol := "https:";
                 hostname := "steamcommunity.com";
                 pathname := "/id/gaben" |}
              Hlen eq_refl Hre eq_refl eq_refl eq_refl) as [Ht Hs].
  specialize (Hs Sample.resolved_name eq_refl).
  rewrite (surjective_pairing (getSteamID _ _ _ _)), Ht, Hs. reflexivity.
Defined.

(** A permalink whose ID is unknown is rejected as an invalid permalink. *)
Lemma permalink_sample :
  Whatwg.parse "https://steamcommunity.com/profiles/76561197960435530"
  = Some {| protocol := "https:";
            hostname := "steamcommunity.com";
            pathname := "/profiles/76561197960435530" |}
  /\ snd (getSteamID Sample.environment (Sample.answers Sample.unknown_player)
            Whatwg.parse
            "https://steamcommunity.com/profiles/76561197960435530")
     = Rejected
         (InvalidPermalinkError
            "Permalink “https://steamcommunity.com/profiles/76561197960435530” is invalid").
Proof.
  split; [reflexivity |].
  assert (Hlen : 0 < String.length
                       "https://steamcommunity.com/profiles/76561197960435530")
    by (cbn; lia).
  assert (Hre : Regex.matches regex
                  "https://steamcommunity.com/profiles/76561197960435530"
                = true) by (vm_compute; reflexivity).
  destruct (permalink_is_validated
              Sample.environment (Sample.answers Sample.unknown_player)
              Whatwg.parse
              "https://steamcommunity.com/profiles/76561197960435530"
              {| protocol := "https:";
                 hostname := "steamcommunity.com";
                 pathname := "/profiles/76561197960435530" |}
              Hlen eq_refl Hre eq_refl eq_refl eq_refl) as [_ Hs].
  exact (Hs Sample.unknown_player [] eq_refl eq_refl).
Defined.

(** A nickname nobody has is rejected as an invalid nickname. *)
Lemma nickname_sample :
  Regex.matches regex "gaben" = false
  /\ snd (getSteamID Sample.environment (Sample.answers Sample.no_response)
            Whatwg.parse "gaben")
     = Rejected (InvalidNicknameError "The nickname “gaben” is invalid").
Proof.
  split; [reflexivity |].
  assert (Hlen : 0 < String.length "gaben") by (cbn; lia).
  destruct (nickname_is_resolved
              Sample.environment (Sample.answers Sample.no_response)
              Whatwg.parse "gaben"
              Hlen eq_refl eq_refl) as [_ Hs].
  exact (Hs Sample.no_response eq_refl).
Defined.

(** An unknown ID64 searched with the flag on: one Loading event, the
    lookup, the Failure event, and nothing of the library fetch. *)
Lemma resolution_error_sample :
  start Sample.environment (Sample.answers Sample.unknown_player)
    Whatwg.parse Sample.on "123"
  = ([Emit (loading SteamIDValidation (Some "123") ID64);
      Get (GetPlayerSummaries Sample.environment (Some "123"));
      Emit (not_retrieved
              (InvalidSteamID64Error "Steam ID64 “123” is invalid") "123")],
     Rejected tt).
Proof.
  exact (proj1 (resolution_error_aborts
                  Sample.environment (Sample.answers Sample.unknown_player)
                  Whatwg.parse Sample.on "123"
                  (InvalidSteamID64Error "Steam ID64 “123” is invalid")
                  eq_refl)).
Defined.

(* ------------------------------------------------------------------ *)
(** ** Further properties of the resolution and of the search          *)
(* ------------------------------------------------------------------ *)

Section Resolution.

Variable environment : Environment.
Variable http_get : string -> Settled Response Error.
Variable newURL : string -> option URL.

Local Abbreviation resolution := (getSteamID environment http_get newURL).
Local Abbreviation search := (start environment http_get newURL).

Local Arguments JS.template : simpl never.

Ltac open_service :=
  unfold getSteamID, getSteamIDFromName, isValidID, get, array_length,
    bind, settle, emit, ret, throw;
  simpl.

Ltac by_cases :=
  repeat match goal with
         | |- context [match ?x with _ => _ end] =>
             lazymatch x with
             | context [match _ with _ => _ end] => fail
             | _ => destruct x eqn:?; simpl
             end
         end.

(** The pieces of a route are not empty. *)
Lemma route_piece_nonempty (url : URL) (piece : string) :
  In piece (route_of url) -> 0 < String.length piece.
Proof.
  unfold route_of. intros H. apply filter_In in H.
  now apply Nat.ltb_lt.
Qed.

Lemma truthy_nonempty (v : JS.value) (id : string) :
  JS.truthy v = true -> v = Some id -> 0 < String.length id.
Proof.
  intros Ht ->. simpl in Ht. destruct (String.length id); [discriminate | lia].
Qed.

Lemma prefix_append (needle rest : string) :
  String.prefix needle (needle ++ rest)%string = true.
Proof.
  induction needle as [| c needle IH]; simpl.
  - now destruct rest.
  - destruct (ascii_dec c c) as [_ | Hc]; [exact IH | now destruct Hc].
Qed.

Lemma includes_prefix (needle hay : string) :
  String.prefix needle hay = true -> JS.includes needle hay = true.
Proof.
  intros H. destruct hay; unfold JS.includes; fold JS.includes;
    now rewrite H.
Qed.

Lemma includes_append (needle front rest : string) :
  JS.includes needle (front ++ needle ++ rest)%string = true.
Proof.
  induction front as [| c front IH].
  - simpl. apply includes_prefix, prefix_append.
  - change (JS.includes needle (String c front ++ needle ++ rest)%string)
      with (String.prefix needle (String c front ++ needle ++ rest)%string
            || JS.includes needle (front ++ needle ++ rest)%string).
    rewrite IH. apply orb_true_r.
Qed.

(** A template of three pieces includes the middle one. *)
Lemma includes_template (front needle rest : string) :
  JS.includes needle (JS.template [front; needle; rest]) = true.
Proof. exact (includes_append needle front rest). Qed.

Lemma GetPlayerSummaries_not_ResolveVanityURL (id input : JS.value) :
  GetPlayerSummaries environment id <> ResolveVanityURL environment input.
Proof.
  unfold GetPlayerSummaries, ResolveVanityURL, JS.template; simpl.
  intros H. do 2 apply append_cancel in H. discriminate H.
Qed.

(** X1. An ID the resolution ends with is never the empty string: it is
    the non-empty term, a steamid that passed the truthiness test, or a
    piece of the route, which holds no empty piece. *)
Theorem resolved_id_is_not_empty (searchTerm id : string) :
  snd (getSteamID environment http_get newURL searchTerm)
  = Fulfilled (Some id) ->
  0 < String.length id.
Proof.
  open_service. by_cases; intros H; try discriminate H; injection H as H.
  - subst. now apply Nat.ltb_lt.
  - eapply truthy_nonempty; eassumption.
  - eapply truthy_nonempty; eassumption.
  - subst. apply route_piece_nonempty with u.
    match goal with E : route_of u = _ |- _ => rewrite E end.
    simpl. auto.
  - eapply truthy_nonempty; eassumption.
Qed.

(** X2. The resolution ends with an ID only after one remote call that
    the transport answered: no ID is made up without the identity
    service. *)
Theorem resolved_id_was_answered (searchTerm id : string) :
  snd (resolution searchTerm) = Fulfilled (Some id) ->
  exists url body,
    requests (fst (resolution searchTerm)) = [url]
    /\ http_get url = Fulfilled body.
Proof.
  open_service. by_cases; intros H; try discriminate H; eauto.
Qed.

(** X3. As long as the transport fails with errors of its own only: a
    rejection with one of the four errors of the service comes after one
    remote call that the transport answered, and the message of the error
    includes the whole search term. *)
Theorem typed_error_names_the_term (searchTerm : string) (e : Error) :
  (forall url e', http_get url = Rejected e' -> typed e' = false) ->
  snd (resolution searchTerm) = Rejected e ->
  typed e = true ->
  JS.includes searchTerm (message e) = true
  /\ exists url body,
       requests (fst (resolution searchTerm)) = [url]
       /\ http_get url = Fulfilled body.
Proof.
  intros Htransport. open_service.
  by_cases; intros H Ht; try discriminate H; injection H as <-;
    try discriminate Ht;
    try (match goal with
         | E : http_get _ = Rejected _ |- _ =>
             apply Htransport in E; congruence
         end);
    (split; [apply includes_template | eauto]).
Qed.

(** X4. When the transport fails the remote call of the resolution, the
    resolution is rejected with the very error of the transport. *)
Theorem transport_failure_is_passed_on
  (searchTerm url : string) (e : Error) :
  requests (fst (resolution searchTerm)) = [url] ->
  http_get url = Rejected e ->
  snd (resolution searchTerm) = Rejected e.
Proof.
  open_service.
  by_cases; intros Hreq Hget; try discriminate Hreq;
    injection Hreq as <-;
    match goal with
    | E : http_get _ = _ |- _ =>
        rewrite E in Hget;
        first [discriminate Hget | injection Hget as ->; reflexivity]
    end.
Qed.

(** X5. [start] is fulfilled exactly when the resolution is fulfilled and
    the transport answers the owned-games request for what the
    resolution ended with; the activation flag has no part in it. *)
Theorem search_fulfils_iff (this : SearchService) (searchTerm : string) :
  snd (search this searchTerm) = Fulfilled tt
  <-> exists result games,
        snd (resolution searchTerm) = Fulfilled result
        /\ http_get (GetOwnedGames environment result) = Fulfilled games.
Proof.
  rewrite start_unfold.
  destruct (snd (resolution searchTerm)) as [result | e]; simpl.
  - destruct (http_get (GetOwnedGames environment result)) as [games | e']
      eqn:Hget; simpl; split.
    + intros _. exists result, games. now split.
    + reflexivity.
    + discriminate.
    + intros (r & g & Hr & Hg). injection Hr as <-. congruence.
  - split; [discriminate |]. intros (r & g & Hr & _). discriminate Hr.
Qed.

(** X6. A remote call of the resolution is its only one, and the Loading
    event just before it announces it with the input of the request: a
    vanity resolution as a Steam ID retrieval, a lookup as a Steam ID
    validation. *)
Theorem resolution_announces_its_call (searchTerm url : string) :
  In (Get url) (fst (resolution searchTerm)) ->
  exists input idtype,
    (fst (resolution searchTerm)
     = [Emit (loading SteamIDRetrieval input idtype); Get url]
     /\ url = ResolveVanityURL environment input)
    \/ (fst (resolution searchTerm)
        = [Emit (loading SteamIDValidation input idtype); Get url]
        /\ url = GetPlayerSummaries environment input).
Proof.
  destruct (getSteamID_trace environment http_get newURL searchTerm)
    as [E | (input & idtype & [E | E])]; rewrite E; simpl; intros H.
  - destruct H.
  - destruct H as [H | [H | []]]; [discriminate H |]. injection H as <-.
    exists input, idtype. left. now split.
  - destruct H as [H | [H | []]]; [discriminate H |]. injection H as <-.
    exists input, idtype. right. now split.
Qed.

Lemma count_app (p : Action -> bool) (t u : list Action) :
  count p (t ++ u) = count p t + count p u.
Proof. unfold count. now rewrite filter_app, length_app. Qed.

(** X7. One search makes at most two remote calls and emits at most three
    events. *)
Theorem search_is_bounded (this : SearchService) (searchTerm : string) :
  count is_request (fst (search this searchTerm)) <= 2
  /\ count is_event (fst (search this searchTerm)) <= 3.
Proof.
  rewrite start_unfold.
  destruct (getSteamID_trace environment http_get newURL searchTerm)
    as [E | (input & idtype & [E | E])];
    destruct (snd (resolution searchTerm)); cbn [fst]; rewrite E;
    destruct (activated this); cbn; lia.
Qed.

(** X8. With the flag on, a search emits exactly one Success or Failure
    event of the Steam ID retrieval. *)
Theorem one_retrieval_outcome_when_on
  (this : SearchService) (searchTerm : string) :
  activated this = true ->
  count retrieval_outcome (fst (search this searchTerm)) = 1.
Proof.
  intros Hon. rewrite start_unfold, Hon.
  destruct (getSteamID_trace environment http_get newURL searchTerm)
    as [E | (input & idtype & [E | E])];
    destruct (snd (resolution searchTerm)) as [result | e]; cbn [fst];
    rewrite E; try destruct (http_get (GetOwnedGames environment result));
    reflexivity.
Qed.

(** X9. A search emits one event of the library fetch when the resolution
    is fulfilled, and none when it is rejected. *)
Theorem fetch_event_iff_resolved
  (this : SearchService) (searchTerm : string) :
  count fetch_event (fst (search this searchTerm))
  = match snd (resolution searchTerm) with
    | Fulfilled _ => 1
    | Rejected _ => 0
    end.
Proof.
  rewrite start_unfold.
  destruct (getSteamID_trace environment http_get newURL searchTerm)
    as [E | (input & idtype & [E | E])];
    destruct (snd (resolution searchTerm)) as [result | e]; cbn [fst];
    rewrite E; destruct (activated this);
    try destruct (http_get (GetOwnedGames environment result));
    reflexivity.
Qed.

(** X12. When the answer to a lookup has no [players] member, the
    resolution is rejected with a [TypeError], not with an error of the
    service. *)
Theorem lookup_without_players_is_TypeError
  (searchTerm : string) (id : JS.value) (validity : Response) :
  requests (fst (resolution searchTerm))
  = [GetPlayerSummaries environment id] ->
  http_get (GetPlayerSummaries environment id) = Fulfilled validity ->
  players validity = None ->
  snd (resolution searchTerm) = Rejected TypeError.
Proof.
  open_service.
  by_cases; intros Hreq Hget Hplayers; try discriminate Hreq;
    injection Hreq as Hreq;
    try (symmetry in Hreq;
         now apply GetPlayerSummaries_not_ResolveVanityURL in Hreq);
    try reflexivity; rewrite <- Hreq in Hget; congruence.
Qed.

(** X14. A non-empty numeric term the lookup knows, searched with the
    flag on while the transport answers the owned-games request: the
    Loading event of the validation, the lookup, the Success event of the
    retrieval with the term as result, the owned-games request for the
    term and the Success event of the library fetch, in this order; and
    [start] is fulfilled. *)
Theorem valid_id64_search
  (this : SearchService) (searchTerm : string)
  (validity games : Response) (player : string) (others : list string) :
  0 < String.length searchTerm ->
  Validator.isNumeric searchTerm = true ->
  http_get (GetPlayerSummaries environment (Some searchTerm))
  = Fulfilled validity ->
  players validity = Some (player :: others) ->
  activated this = true ->
  http_get (GetOwnedGames environment (Some searchTerm)) = Fulfilled games ->
  search this searchTerm
  = ([Emit (loading SteamIDValidation (Some searchTerm) ID64);
      Get (GetPlayerSummaries environment (Some searchTerm));
      Emit (retrieved (Some searchTerm) searchTerm);
      Get (GetOwnedGames environment (Some searchTerm));
      Emit (fetched games)],
     Fulfilled tt).
Proof.
  intros Hlen Hnum Hget Hplayers Hon Hgames. apply Nat.ltb_lt in Hlen.
  assert (E : resolution searchTerm
              = ([Emit (loading SteamIDValidation (Some searchTerm) ID64);
                  Get (GetPlayerSummaries environment (Some searchTerm))],
                 Fulfilled (Some searchTerm))).
  { unfold getSteamID. rewrite Hlen, Hnum. open_service.
    now rewrite Hget, Hplayers. }
  rewrite start_unfold, E. cbn [fst snd]. now rewrite Hon, Hgames.
Qed.

End Resolution.

(* ------------------------------------------------------------------ *)
(** ** What the URL expression and the URL constructor ask for          *)
(* ------------------------------------------------------------------ *)

Lemma step_reaches (p : ascii -> bool) :
  reaches (fun k _ s => Regex.step p k s).
Proof.
  intros k prev [| c s] H; simpl in H; [discriminate |].
  apply andb_true_iff in H. destruct H as [_ H].
  now exists (Some c), [c], s.
Qed.

Lemma repeat_reaches (body : Regex.cont -> Regex.cont) :
  reaches body -> forall n lo, reaches (fun k => Regex.repeat body n lo k).
Proof.
  intros Hbody n.
  induction n as [| n IH]; intros lo k prev s H; simpl in H.
  - apply andb_true_iff in H. destruct H as [_ H]. now exists prev, [], s.
  - apply orb_true_iff in H. destruct H as [H | H].
    + apply Hbody in H. destruct H as (p1 & f1 & s1 & -> & H).
      apply IH in H. destruct H as (p2 & f2 & s2 & -> & H).
      exists p2, (f1 ++ f2), s2. now rewrite app_assoc.
    + apply andb_true_iff in H. destruct H as [_ H]. now exists prev, [], s.
Qed.

Lemma rmatch_reaches (r : Regex.regex) : reaches (Regex.rmatch r).
Proof.
  induction r as [c | | p | | r1 IH1 r2 IH2 | r IH | lo hi r IH | r IH];
    intros k prev s H.
  - now apply (step_reaches (Ascii.eqb c)).
  - now apply (step_reaches (fun c => negb (Regex.is_line_terminator c))).
  - now apply (step_reaches p).
  - simpl in H. apply andb_true_iff in H. destruct H as [_ H].
    now exists prev, [], s.
  - simpl in H. apply IH1 in H. destruct H as (p1 & f1 & s1 & -> & H).
    apply IH2 in H. destruct H as (p2 & f2 & s2 & -> & H).
    exists p2, (f1 ++ f2), s2. now rewrite app_assoc.
  - simpl in H. apply orb_true_iff in H. destruct H as [H | H].
    + exact (IH _ _ _ H).
    + now exists prev, [], s.
  - exact (repeat_reaches _ IH hi lo k prev s H).
  - exact (repeat_reaches _ IH (List.length s) 0 k prev s H).
Qed.

Lemma rmatch_cat (r1 r2 : Regex.regex) (k : Regex.cont)
  (prev : option ascii) (s : list ascii) :
  Regex.rmatch (Regex.Cat r1 r2) k prev s
  = Regex.rmatch r1 (Regex.rmatch r2 k) prev s.
Proof. reflexivity. Qed.

(** A match of the URL expression passes over a dot. *)
Lemma regex_passes_a_dot (k : Regex.cont) (prev : option ascii)
  (s : list ascii) :
  Regex.rmatch regex k prev s = true -> In "."%char s.
Proof.
  unfold regex. cbv zeta. intros H.
  do 3 (rewrite rmatch_cat in H; apply rmatch_reaches in H;
        destruct H as (? & ? & ? & -> & H)).
  rewrite rmatch_cat in H.
  match type of H with
  | Regex.rmatch _ _ _ ?t = true => destruct t as [| c t]
  end; cbn [Regex.rmatch Regex.step] in H; [discriminate |].
  apply andb_true_iff in H. destruct H as [Hc _].
  apply Ascii.eqb_eq in Hc. subst c.
  repeat (apply in_or_app; right). now left.
Qed.

Lemma search_passes_a_dot (prev : option ascii) (s : list ascii) :
  Regex.search regex prev s = true -> In "."%char s.
Proof.
  revert prev.
  induction s as [| c s IH]; intros prev H; cbn [Regex.search] in H.
  - rewrite orb_false_r in H. now apply regex_passes_a_dot in H.
  - apply orb_true_iff in H. destruct H as [H | H].
    + now apply regex_passes_a_dot in H.
    + right. now apply IH in H.
Qed.

Lemma one_of_In (s : string) (c : ascii) :
  JS.one_of s c = true <-> In c (list_ascii_of_string s).
Proof.
  induction s as [| d s IH]; simpl.
  - split; [discriminate | intros []].
  - rewrite orb_true_iff, IH, Ascii.eqb_eq. intuition congruence.
Qed.

(** A term the URL expression matches has a dot in it. *)
Lemma matched_term_has_a_dot (searchTerm : string) :
  Regex.matches regex searchTerm = true -> JS.one_of searchTerm "." = true.
Proof.
  intros H. apply one_of_In. now apply search_passes_a_dot in H.
Qed.

(** X10. A non-empty term that is not numeric and has no dot in it is
    resolved as a nickname, whatever else it is made of: the URL
    expression does not match it. *)
Theorem dotless_term_is_a_nickname
  (environment : Environment)
  (http_get : string -> Settled Response Error)
  (newURL : string -> option URL) (searchTerm : string) :
  0 < String.length searchTerm ->
  Validator.isNumeric searchTerm = false ->
  JS.one_of searchTerm "." = false ->
  Regex.matches regex searchTerm = false
  /\ fst (getSteamID environment http_get newURL searchTerm)
     = [Emit (loading SteamIDRetrieval (Some searchTerm) Nickname);
        Get (ResolveVanityURL environment (Some searchTerm))].
Proof.
  intros Hlen Hnum Hdot. apply Nat.ltb_lt in Hlen.
  assert (Hre : Regex.matches regex searchTerm = false).
  { destruct (Regex.matches regex searchTerm) eqn:E; [| reflexivity].
    apply matched_term_has_a_dot in E. congruence. }
  split; [exact Hre |].
  unfold getSteamID. rewrite Hlen, Hnum, Hre.
  unfold getSteamIDFromName, get, bind, settle, emit. simpl.
  now destruct (http_get (ResolveVanityURL environment (Some searchTerm)))
    as [res | e]; simpl; [destruct (JS.truthy (steamid res)) |].
Qed.

Lemma drop_while_In (p : ascii -> bool) (s : list ascii) (c : ascii) :
  In c (Whatwg.drop_while p s) -> In c s.
Proof.
  induction s as [| d s IH]; simpl; [tauto |].
  destruct (p d); [intros H; right; now apply IH | tauto].
Qed.

Lemma preprocess_In (s : list ascii) (c : ascii) :
  In c (Whatwg.preprocess s) -> In c s.
Proof.
  unfold Whatwg.preprocess. intros H.
  apply filter_In in H. destruct H as [H _].
  apply in_rev, drop_while_In, in_rev, drop_while_In in H. exact H.
Qed.

Lemma scheme_state_In (buffer s scheme rest : list ascii) :
  Whatwg.scheme_state buffer s = Some (scheme, rest) -> In ":"%char s.
Proof.
  revert buffer.
  induction s as [| c s IH]; intros buffer H;
    cbn [Whatwg.scheme_state] in H.
  - discriminate.
  - destruct (JS.is_alnum c || JS.one_of "+-." c).
    + right. now apply IH in H.
    + destruct (Ascii.eqb c ":") eqn:E; [| discriminate].
      apply Ascii.eqb_eq in E. now left.
Qed.

(** The URL constructor fails on a text with no colon in it. *)
Lemma colonless_text_is_unparsed (input : string) :
  JS.one_of input ":" = false -> Whatwg.parse input = None.
Proof.
  intros Hcolon. unfold Whatwg.parse.
  destruct (Whatwg.scheme_start_state (Whatwg.preprocess (Whatwg.chars input)))
    as [[scheme rest] |] eqn:E; [| reflexivity].
  exfalso. unfold Whatwg.scheme_start_state in E.
  destruct (Whatwg.preprocess (Whatwg.chars input)) as [| c s] eqn:Es;
    [discriminate |].
  destruct (JS.is_alpha c); [| discriminate].
  apply scheme_state_In in E. rewrite <- Es in E.
  apply preprocess_In, one_of_In in E. congruence.
Qed.

(** X11. With the URL constructor of the platform, a term the URL
    expression matches and that has no colon in it is rejected with a
    [TypeError] before any remote call: so are a URL without a scheme
    and a nickname with a dot in it. *)
Theorem colonless_match_is_TypeError
  (environment : Environment)
  (http_get : string -> Settled Response Error) (searchTerm : string) :
  Regex.matches regex searchTerm = true ->
  JS.one_of searchTerm ":" = false ->
  getSteamID environment http_get Whatwg.parse searchTerm
  = ([], Rejected TypeError).
Proof.
  intros Hre Hcolon.
  pose proof (matched_term_has_a_dot searchTerm Hre) as Hdot.
  apply one_of_In in Hdot.
  assert (Hlen : Nat.ltb 0 (String.length searchTerm) = true).
  { destruct searchTerm; [destruct Hdot | reflexivity]. }
  assert (Hnum : Validator.isNumeric searchTerm = false).
  { unfold Validator.isNumeric.
    destruct (forallb JS.is_digit (list_ascii_of_string searchTerm)) eqn:E;
      [| reflexivity].
    rewrite forallb_forall in E. apply E in Hdot. discriminate Hdot. }
  unfold getSteamID.
  rewrite Hlen, Hnum, Hre, (colonless_text_is_unparsed searchTerm Hcolon).
  reflexivity.
Qed.

Lemma one_of_append (a b : string) (c : ascii) :
  JS.one_of (a ++ b)%string c = JS.one_of a c || JS.one_of b c.
Proof.
  induction a as [| d a IH]; simpl; [reflexivity |].
  now rewrite IH, orb_assoc.
Qed.

(** No piece of a split holds the separator. *)
Lemma split_from_plain (sep : ascii) (s cur piece : string) :
  JS.one_of cur sep = false ->
  In piece (JS.split_from sep cur s) ->
  JS.one_of piece sep = false.
Proof.
  revert cur. induction s as [| c s IH]; intros cur Hcur H; simpl in H.
  - destruct H as [<- | []]. exact Hcur.
  - destruct (Ascii.eqb c sep) eqn:E.
    + destruct H as [<- | H]; [exact Hcur |]. now apply (IH EmptyString).
    + apply (IH (cur ++ String c EmptyString)%string); [| exact H].
      rewrite one_of_append, Hcur. simpl.
      now rewrite Ascii.eqb_sym, E.
Qed.

(** X13. The route of a URL holds neither an empty piece nor a piece with
    a slash in it, so leading, trailing and doubled slashes of the path
    leave no trace in it. *)
Theorem route_pieces_are_plain (url : URL) (piece : string) :
  In piece (route_of url) ->
  0 < String.length piece /\ JS.one_of piece "/" = false.
Proof.
  unfold route_of. intros H. apply filter_In in H. destruct H as [H Hlen].
  split; [now apply Nat.ltb_lt |].
  now apply (split_from_plain "/" (pathname url) EmptyString).
Qed.

Section Rejections.

Variable environment : Environment.
Variable http_get : string -> Settled Response Error.
Variable newURL : string -> option URL.

(** X15. A resolution rejected before any remote call was rejected by the
    URL constructor: the term matched the URL expression, the constructor
    threw on it, and the error is its [TypeError]. *)
Theorem rejection_without_call_is_of_URL (searchTerm : string) (e : Error) :
  fst (getSteamID environment http_get newURL searchTerm) = [] ->
  snd (getSteamID environment http_get newURL searchTerm) = Rejected e ->
  e = TypeError
  /\ Regex.matches regex searchTerm = true
  /\ newURL searchTerm = None.
Proof.
  unfold getSteamID, getSteamIDFromName, isValidID, get, array_length,
    bind, settle, emit, ret, throw.
  simpl.
  repeat match goal with
         | |- context [match ?x with _ => _ end] =>
             lazymatch x with
             | context [match _ with _ => _ end] => fail
             | _ => destruct x eqn:?; simpl
             end
         end;
    intros Hcalls Hrej; try discriminate Hcalls; try discriminate Hrej.
  injection Hrej as <-. now repeat split.
Qed.

End Rejections.

(* ------------------------------------------------------------------ *)
(** ** The further properties on sample searches                       *)
(* ------------------------------------------------------------------ *)

Lemma resolved_id_sample :
  snd (getSteamID Sample.environment (Sample.answers Sample.known_player)
         Whatwg.parse "123")
  = Fulfilled (Some "123")
  /\ 0 < String.length "123".
Proof.
  split; [reflexivity |].
  exact (resolved_id_is_not_empty
           Sample.environment (Sample.answers Sample.known_player)
           Whatwg.parse "123" "123" eq_refl).
Defined.

Lemma resolved_id_answer_sample :
  exists url body,
    requests (fst (getSteamID Sample.environment
                     (Sample.answers Sample.known_player)
                     Whatwg.parse "123"))
    = [url]
    /\ Sample.answers Sample.known_player url = Fulfilled body.
Proof.
  exact (resolved_id_was_answered
           Sample.environment (Sample.answers Sample.known_player)
           Whatwg.parse "123" "123" eq_refl).
Defined.

Lemma typed_error_sample :
  JS.includes "123" "Steam ID64 “123” is invalid" = true.
Proof.
  refine (proj1 (typed_error_names_the_term
                   Sample.environment (Sample.answers Sample.unknown_player)
                   Whatwg.parse "123"
                   (InvalidSteamID64Error "Steam ID64 “123” is invalid")
                   _ eq_refl eq_refl)).
  intros url e' H. discriminate H.
Defined.

Lemma transport_failure_sample :
  snd (getSteamID Sample.environment (Sample.fails 500) Whatwg.parse "123")
  = Rejected (HttpErrorResponse 500).
Proof.
  exact (transport_failure_is_passed_on
           Sample.environment (Sample.fails 500) Whatwg.parse "123"
           (GetPlayerSummaries Sample.environment (Some "123"))
           (HttpErrorResponse 500) eq_refl eq_refl).
Defined.

Lemma announced_call_sample :
  exists input idtype,
    (fst (getSteamID Sample.environment (Sample.answers Sample.no_response)
            Whatwg.parse "gaben")
     = [Emit (loading SteamIDRetrieval input idtype);
        Get (ResolveVanityURL Sample.environment (Some "gaben"))]
     /\ ResolveVanityURL Sample.environment (Some "gaben")
        = ResolveVanityURL Sample.environment input)
    \/ (fst (getSteamID Sample.environment (Sample.answers Sample.no_response)
               Whatwg.parse "gaben")
        = [Emit (loading SteamIDValidation input idtype);
           Get (ResolveVanityURL Sample.environment (Some "gaben"))]
        /\ ResolveVanityURL Sample.environment (Some "gaben")
           = GetPlayerSummaries Sample.environment input).
Proof.
  apply (resolution_announces_its_call
           Sample.environment (Sample.answers Sample.no_response)
           Whatwg.parse "gaben"
           (ResolveVanityURL Sample.environment (Some "gaben"))).
  right. left. reflexivity.
Defined.

Lemma one_outcome_sample :
  count retrieval_outcome
    (fst (start Sample.environment (Sample.answers Sample.unknown_player)
            Whatwg.parse Sample.on "123"))
  = 1.
Proof.
  exact (one_retrieval_outcome_when_on
           Sample.environment (Sample.answers Sample.unknown_player)
           Whatwg.parse Sample.on "123" eq_refl).
Defined.

Lemma dotless_term_sample :
  Regex.matches regex "gaben" = false
  /\ fst (getSteamID Sample.environment (Sample.answers Sample.resolved_name)
            Whatwg.parse "gaben")
     = [Emit (loading SteamIDRetrieval (Some "gaben") Nickname);
        Get (ResolveVanityURL Sample.environment (Some "gaben"))].
Proof.
  refine (dotless_term_is_a_nickname
            Sample.environment (Sample.answers Sample.resolved_name)
            Whatwg.parse "gaben" _ eq_refl eq_refl).
  cbn. lia.
Defined.

Lemma dotted_nickname_sample :
  getSteamID Sample.environment (Sample.answers Sample.resolved_name)
    Whatwg.parse "john.doe"
  = ([], Rejected TypeError).
Proof.
  refine (colonless_match_is_TypeError
            Sample.environment (Sample.answers Sample.resolved_name)
            "john.doe" _ eq_refl).
  lazy. reflexivity.
Defined.

Lemma lookup_without_players_sample :
  snd (getSteamID Sample.environment (Sample.answers Sample.no_response)
         Whatwg.parse "123")
  = Rejected TypeError.
Proof.
  exact (lookup_without_players_is_TypeError
           Sample.environment (Sample.answers Sample.no_response)
           Whatwg.parse "123" (Some "123") Sample.no_response
           eq_refl eq_refl eq_refl).
Defined.

Lemma route_piece_sample :
  route_of {| protocol := "https:";
              hostname := "steamcommunity.com";
              pathname := "//id//gaben/" |}
  = ["id"; "gaben"]
  /\ 0 < String.length "gaben" /\ JS.one_of "gaben" "/" = false.
Proof.
  split; [reflexivity |].
  apply (route_pieces_are_plain
           {| protocol := "https:";
              hostname := "steamcommunity.com";
              pathname := "//id//gaben/" |} "gaben").
  right. left. reflexivity.
Defined.

Lemma valid_id64_search_sample :
  start Sample.environment (Sample.answers Sample.known_player)
    Whatwg.parse Sample.on "123"
  = ([Emit (loading SteamIDValidation (Some "123") ID64);
      Get (GetPlayerSummaries Sample.environment (Some "123"));
      Emit (retrieved (Some "123") "123");
      Get (GetOwnedGames Sample.environment (Some "123"));
      Emit (fetched Sample.known_player)],
     Fulfilled tt).
Proof.
  refine (valid_id64_search
            Sample.environment (Sample.answers Sample.known_player)
            Whatwg.parse Sample.on "123" Sample.known_player
            Sample.known_player "{}" [] _ eq_refl eq_refl eq_refl eq_refl
            eq_refl).
  cbn. lia.
Defined.

Lemma rejection_without_call_sample :
  Regex.matches regex "john.doe" = true /\ Whatwg.parse "john.doe" = None.
Proof.
  refine (proj2 (rejection_without_call_is_of_URL
                   Sample.environment (Sample.answers Sample.resolved_name)
                   Whatwg.parse "john.doe" TypeError _ _));
    lazy; reflexivity.
Defined.
